(** * smartbuysoup: the matcher and the message composer of [script.py]

    A shallow embedding of [search_for_products] and [compose_message].

    Modelling choices.
    - A Python [str] is a [string] holding the UTF-8 bytes of the text.
      UTF-8 is self-synchronising, so the substring test on the bytes of two
      well-formed texts agrees with the substring test on their code points.
    - [str.lower] and [str.title] are Python built-ins, not code of the
      repository. The program is embedded over an arbitrary pair of such
      functions (Section variables); [ascii_lower] and [ascii_title] are the
      built-ins restricted to texts whose cased characters are ASCII letters
      (ASCII and Hebrew text, which has no case) and serve to run the program.
    - The HTML parser is an external library: the embedding starts from the
      parsed document tree ([soup]).  A tree node is a text node or a tag;
      the [BeautifulSoup] object itself is the root tag.  Comments and the
      other special strings of the library are left out.  The operations of
      the library on the tree ([.string], [.text], [.children], [.parents],
      [find_all], [get]) follow its documentation.
    - A raised exception is a value [Raise e] of the [result] monad. *)

From Stdlib Require Import Ascii String.
From stdpp Require Import base option list strings gmap.

Open Scope string_scope.
Open Scope list_scope.

(** ** Python strings *)

Module PyStr.

(** [x in s] on two [str]: [x] occurs in [s] as a contiguous run. *)
Fixpoint str_in (x s : string) : bool :=
  String.prefix x s ||
  match s with
  | EmptyString => false
  | String _ s' => str_in x s'
  end.

(** What [x in s] means. *)
Definition substring_of (x s : string) : Prop :=
  ∃ pre post : string, s = pre +:+ x +:+ post.

(** [sep.join(parts)] is [String.concat sep parts]. *)
Abbreviation join := String.concat (only parsing).

Definition is_upper (c : ascii) : bool :=
  let n := nat_of_ascii c in (65 <=? n)%nat && (n <=? 90)%nat.
Definition is_lower (c : ascii) : bool :=
  let n := nat_of_ascii c in (97 <=? n)%nat && (n <=? 122)%nat.
Definition is_cased (c : ascii) : bool := is_upper c || is_lower c.

Definition to_lower (c : ascii) : ascii :=
  if is_upper c then ascii_of_nat (nat_of_ascii c + 32) else c.
Definition to_upper (c : ascii) : ascii :=
  if is_lower c then ascii_of_nat (nat_of_ascii c - 32) else c.

(** [str.lower] on a text whose cased characters are ASCII letters. *)
Fixpoint ascii_lower (s : string) : string :=
  match s with
  | EmptyString => EmptyString
  | String c s' => String (to_lower c) (ascii_lower s')
  end.

(** [str.title]: a character that follows an uncased one (or starts the
    text) is upper-cased, a character that follows a cased one is
    lower-cased. *)
Fixpoint title_from (previous_is_cased : bool) (s : string) : string :=
  match s with
  | EmptyString => EmptyString
  | String c s' =>
      String (if previous_is_cased then to_lower c else to_upper c)
             (title_from (is_cased c) s')
  end.

Definition ascii_title (s : string) : string := title_from false s.

Definition nl : string := String (ascii_of_nat 10) EmptyString.
Definition dquote : string := String (ascii_of_nat 34) EmptyString.

End PyStr.
Export PyStr.

(** ** Exceptions *)

Inductive exn : Set :=
| StopIteration   (* [next] on an exhausted iterator *)
| IndexError      (* list index out of range *)
| AttributeError. (* [.children] of a text node *)

Inductive result (A : Type) : Type :=
| Ok (a : A)
| Raise (e : exn).
Arguments Ok {A} a.
Arguments Raise {A} e.

#[export] Instance result_ret : MRet result := @Ok.
#[export] Instance result_bind : MBind result := λ A B f r,
  match r with
  | Ok a => f a
  | Raise e => Raise e
  end.

(** A [for] loop whose body may raise: the first exception ends the loop. *)
Fixpoint for_each {A S : Type} (body : A → S → result S) (xs : list A) (s : S)
  : result S :=
  match xs with
  | [] => Ok s
  | x :: xs' => s' ← body x s; for_each body xs' s'
  end.

(** ** The parsed document *)

#[warnings="-register-all"]
Inductive node : Type :=
| NavigableString (s : string)
| Tag (name : string) (attrs : gmap string string) (contents : list node).

(** An element as the program holds it: the node and the chain of its
    parents, nearest first, ending with the [BeautifulSoup] root. *)
Record element : Type := Element { elt : node; parents : list node }.

Module Soup.

(** [tag.get(key, default)]. *)
Definition get (n : node) (key dflt : string) : string :=
  match n with
  | Tag _ attrs _ => default dflt (attrs !! key)
  | NavigableString _ => dflt
  end.

(** [tag.string]: the text of a tag whose only child is a text node, or
    the [.string] of an only child that is a tag; [None] otherwise. *)
Fixpoint string_of (n : node) : option string :=
  match n with
  | NavigableString s => Some s
  | Tag _ _ [child] => string_of child
  | Tag _ _ _ => None
  end.

(** [node.text]: the text nodes below the node, concatenated; a text node
    is its own text. *)
Fixpoint text (n : node) : string :=
  match n with
  | NavigableString s => s
  | Tag _ _ cs => join EmptyString (map text cs)
  end.

(** [node.children]; a text node has no such attribute. *)
Definition children (n : node) : result (list node) :=
  match n with
  | Tag _ _ cs => Ok cs
  | NavigableString _ => Raise AttributeError
  end.

Definition has_name (name : string) (n : node) : bool :=
  match n with
  | Tag nm _ _ => String.eqb nm name
  | NavigableString _ => false
  end.

(** The node [n], whose parents are [ps], followed by everything below it,
    in document order. *)
Fixpoint subtree (ps : list node) (n : node) : list element :=
  Element n ps ::
  match n with
  | NavigableString _ => []
  | Tag _ _ cs => flat_map (subtree (n :: ps)) cs
  end.

(** [tag.descendants]. *)
Definition descendants (e : element) : list element :=
  match elt e with
  | NavigableString _ => []
  | Tag _ _ cs => flat_map (subtree (elt e :: parents e)) cs
  end.

(** [soup.find_all(name)]: the tags of that name below the root, in
    document order. *)
Definition find_all (soup : node) (name : string) : list element :=
  List.filter (λ e, has_name name (elt e)) (descendants (Element soup [])).

End Soup.

(** ** Iterators and indexing *)

(** [itertools.islice(it, start, None)]. *)
Definition islice {A : Type} (it : list A) (start : nat) : list A :=
  drop start it.

(** [next(it)]. *)
Definition next {A : Type} (it : list A) : result A :=
  match it with
  | x :: _ => Ok x
  | [] => Raise StopIteration
  end.

(** [l[i]] for a non-negative literal [i]. *)
Definition index {A : Type} (l : list A) (i : nat) : result A :=
  match l !! i with
  | Some x => Ok x
  | None => Raise IndexError
  end.

(** ** The match set: a [dict] from keyword to links, in insertion order *)

Definition matchset : Type := list (string * list string).

Definition keys (d : matchset) : list string := map fst d.

Fixpoint lookup_key (k : string) (d : matchset) : option (list string) :=
  match d with
  | [] => None
  | (k', vs) :: d' => if String.eqb k' k then Some vs else lookup_key k d'
  end.

(** [d.setdefault(k, []).append(v)]. *)
Fixpoint setdefault_append (k v : string) (d : matchset) : matchset :=
  match d with
  | [] => [(k, [v])]
  | (k', vs) :: d' =>
      if String.eqb k' k then (k', vs ++ [v]) :: d'
      else (k', vs) :: setdefault_append k v d'
  end.

(** ** [search_for_products] *)

Definition hours_marker : string := "שעות".
Definition one_day_marker : string := "1 ימים".

Definition date_is_today (date_text : string) : bool :=
  str_in hours_marker date_text || str_in one_day_marker date_text.

(** Truth value of a [str]. *)
Definition truthy (s : string) : bool :=
  match s with
  | EmptyString => false
  | String _ _ => true
  end.

(** Lines 43-48: the fifth parent, its fourth child, that one's fourth
    child, that one's second child, and the text of it. *)
Definition date_text_of (a : element) : result string :=
  a_ancestor_element ← next (islice (parents a) 4);
  c1 ← Soup.children a_ancestor_element;
  n1 ← index c1 3;
  c2 ← Soup.children n1;
  n2 ← index c2 3;
  c3 ← Soup.children n2;
  n3 ← index c3 1;
  Ok (Soup.text n3).

Section Matcher.

(** [str.lower]. *)
Variable lower : string → string.

(** Line 42, for an already lower-cased keyword [p]. *)
Definition condition (p : string) (a : element) : bool :=
  match Soup.string_of (elt a) with
  | None => false
  | Some s => str_in p (lower s) && truthy (Soup.get (elt a) "href" EmptyString)
  end.

(** The body of the inner loop, lines 42-51. *)
Definition visit (p : string) (a : element) (matches : matchset)
  : result matchset :=
  if condition p a then
    date_text ← date_text_of a;
    if date_is_today date_text
    then Ok (setdefault_append p (Soup.get (elt a) "href" EmptyString) matches)
    else Ok matches
  else Ok matches.

(** Lines 36-56, once [a_tags] is known. *)
Definition search_tags (a_tags : list element) (products : list string)
  : result (option matchset) :=
  let products := map lower products in
  matches ← for_each (λ p, for_each (visit p) a_tags) products [];
  Ok (if (length (keys matches) =? 0)%nat then None else Some matches).

Definition search_for_products (soup : node) (products : list string)
  : result (option matchset) :=
  search_tags (Soup.find_all soup "a") products.

End Matcher.

(** ** [compose_message] *)

(** The [MIMEText] object that [compose_message] fills in.  Its encoding by
    [as_bytes] and [urlsafe_b64encode] is the work of the libraries. *)
Record message : Type := Message {
  msg_body : string;
  msg_to : string;
  msg_from : string;
  msg_subject : string
}.

Section Composer.

(** [str.title]. *)
Variable title : string → string.
(** The two addresses of the module [secret_keys]. *)
Variables TARGET_MAIL_ADDR FROM_MAIL_ADDR : string.

(** One turn of the loop of lines 108-112. *)
Definition add_product (body : string) (item : string * list string) : string :=
  let '(key, links) := item in
  let body := body +:+ "The product responding to keyword " +:+ dquote +:+ key
                   +:+ dquote +:+ " has been found in SmartBuy." +:+ nl in
  body +:+ "Click here to find out more: " +:+ join " , " links +:+ nl +:+ nl.

Definition compose_body (products : matchset) : string :=
  foldl add_product ("Great success!" +:+ nl +:+ nl) products.

Definition compose_subject (products : matchset) : string :=
  "SmartBuy products alert! (" +:+ title (join ", " (keys products)) +:+ ")".

Definition compose_message (products : matchset) : message :=
  {| msg_body := compose_body products;
     msg_to := TARGET_MAIL_ADDR;
     msg_from := FROM_MAIL_ADDR;
     msg_subject := compose_subject products |}.

End Composer.

(** ** Sample documents *)

Module Sample.

Definition div (cs : list node) : node := Tag "div" ∅ cs.
Definition txt (s : string) : node := NavigableString s.
Definition anchor (href : string) (cs : list node) : node :=
  Tag "a" {[ "href" := href ]} cs.

(** A deal row laid out as the matcher expects: the link sits five levels
    below the row, the indicator is the second child of the fourth child
    of the fourth child of the row. *)
Definition row (a : node) (indicator : node) : node :=
  div [ div [ div [ div [ div [ a ] ] ] ];
        txt " ";
        div [];
        div [ txt " "; div []; txt " ";
              div [ txt " "; indicator ] ] ].

Definition page (rows : list node) : node := Tag "[document]" ∅ rows.

Definition widget : node := anchor "http://x/1" [txt "Widget Pro"].

(** The link [widget] as [find_all] returns it from the page made of one
    row with the given indicator. *)
Definition widget_in (indicator : node) : element :=
  Element widget
    [ div [ widget ];
      div [ div [ widget ] ];
      div [ div [ div [ widget ] ] ];
      div [ div [ div [ div [ widget ] ] ] ];
      row widget indicator;
      page [ row widget indicator ] ].

(** The link [a] as [find_all] returns it from the page made of one row
    with the given indicator. *)
Definition anchor_in (a : node) (indicator : node) : element :=
  Element a
    [ div [ a ];
      div [ div [ a ] ];
      div [ div [ div [ a ] ] ];
      div [ div [ div [ div [ a ] ] ] ];
      row a indicator;
      page [ row a indicator ] ].

(** [<a href="http://x/1">Widget <b>Pro</b></a>]: text beside a tag. *)
Definition mixed : node :=
  anchor "http://x/1" [txt "Widget "; Tag "b" ∅ [txt "Pro"]].

(** [<a href="http://x/1"><b><i>Widget Pro</i></b></a>]: no text node
    among the children of the link. *)
Definition nested : node :=
  anchor "http://x/1" [Tag "b" ∅ [Tag "i" ∅ [txt "Widget Pro"]]].

Definition hours5 : node := div [ txt "5 שעות" ].
Definition days3 : node := div [ txt "3 ימים" ].
Definition days11 : node := div [ txt "11 ימים" ].

End Sample.

(** ** Vocabulary of the statements *)

(** The link of an anchor, as line 51 stores it. *)
Definition href (a : element) : string := Soup.get (elt a) "href" EmptyString.

(** The indicator of the anchor is reached and is fresh. *)
Definition fresh (a : element) : bool :=
  match date_text_of a with
  | Ok date_text => date_is_today date_text
  | Raise _ => false
  end.

(** [d.get(k, [])]. *)
Definition get_list (k : string) (d : matchset) : list string :=
  default [] (lookup_key k d).

(** The elements of [l] that are not in [seen], each at its first
    occurrence: the order in which a [dict] that holds [seen] receives the
    new keys [l]. *)
Fixpoint first_occurrences (seen l : list string) : list string :=
  match l with
  | [] => []
  | x :: l' =>
      if bool_decide (x ∈ seen) then first_occurrences seen l'
      else x :: first_occurrences (x :: seen) l'
  end.

(** Appending the links [vs], in order, under the keyword [p]. *)
Definition extend (p : string) (vs : list string) (d : matchset) : matchset :=
  foldl (λ d v, setdefault_append p v d) d vs.

Section Vocabulary.

Variable lower : string → string.

(** The anchor passes line 42 for the keyword and its indicator is fresh. *)
Definition hit (p : string) (a : element) : bool :=
  condition lower p a && fresh a.

(** The links of the fresh anchors that match [p], in document order. *)
Definition links (p : string) (a_tags : list element) : list string :=
  map href (List.filter (hit p) a_tags).

(** The exception of the first anchor that passes line 42 for [p] and
    whose traversal fails. *)
Fixpoint first_error (p : string) (a_tags : list element) : option exn :=
  match a_tags with
  | [] => None
  | a :: rest =>
      if condition lower p a then
        match date_text_of a with
        | Raise e => Some e
        | Ok _ => first_error p rest
        end
      else first_error p rest
  end.

Fixpoint first_error_all (products : list string) (a_tags : list element)
  : option exn :=
  match products with
  | [] => None
  | p :: rest =>
      match first_error p a_tags with
      | Some e => Some e
      | None => first_error_all rest a_tags
      end
  end.

(** What the two loops collect when no traversal fails: for each keyword
    in turn, the links of its fresh matching anchors. *)
Definition collected (products : list string) (a_tags : list element)
    (d : matchset) : matchset :=
  foldl (λ d p, extend p (links p a_tags) d) d products.

(** The keyword has at least one fresh matching anchor. *)
Definition has_links (a_tags : list element) (p : string) : bool :=
  match links p a_tags with
  | [] => false
  | _ :: _ => true
  end.

(** The anchor can contribute at all: it has a [.string] and a link. *)
Definition eligible (a : element) : bool :=
  match Soup.string_of (elt a) with
  | None => false
  | Some _ => truthy (href a)
  end.

End Vocabulary.

(** [c] is one of the children of [p]. *)
Definition is_child_of (c p : node) : Prop :=
  match p with
  | Tag _ _ cs => In c cs
  | NavigableString _ => False
  end.

(** [ps] is the chain of parents of [n] in the document [root]. *)
Fixpoint ancestry (root n : node) (ps : list node) : Prop :=
  match ps with
  | [] => n = root
  | p :: ps' => is_child_of n p ∧ ancestry root p ps'
  end.

(** The text holds ASCII characters only: every byte of its UTF-8 encoding
    is below 128.  On such a text [str.lower] is [ascii_lower] and
    [str.title] is [ascii_title]. *)
Fixpoint ascii_only (s : string) : bool :=
  match s with
  | EmptyString => true
  | String c s' => (nat_of_ascii c <? 128)%nat && ascii_only s'
  end.

(** The direct text of a tag, read literally: the text nodes among its
    children. *)
Definition direct_texts (n : node) : list string :=
  match n with
  | NavigableString _ => []
  | Tag _ _ cs =>
      flat_map (λ c, match c with
                     | NavigableString s => [s]
                     | Tag _ _ _ => []
                     end) cs
  end.

(** The direct text content of a tag: its direct texts put together, [None]
    when no child of the tag is a text node. *)
Definition direct_text (n : node) : option string :=
  match direct_texts n with
  | [] => None
  | ts => Some (join EmptyString ts)
  end.


(** The sentence of the specification on the anchors that are skipped: an
    anchor with an empty or missing link, or with no direct text content,
    adds nothing for any keyword. *)
Definition never_included_as_specified (lower : string → string)
    (a : element) : Prop :=
  Soup.get (elt a) "href" EmptyString = EmptyString ∨
  direct_text (elt a) = None →
  ∀ p d, visit lower p a d = Ok d.

(** The two lines that the body of the message holds for one keyword. *)
Definition paragraph (item : string * list string) : string :=
  ("The product responding to keyword " +:+ dquote +:+ item.1 +:+ dquote
     +:+ " has been found in SmartBuy." +:+ nl)
  +:+ ("Click here to find out more: " +:+ join " , " item.2 +:+ nl +:+ nl).

(** The sentence of the specification on the subject of the message. *)
Definition subject_as_specified (title : string → string) (d : matchset) : Prop :=
  ∀ to from,
    msg_subject (compose_message title to from d)
    = "Alert! (" +:+ join ", " (map title (keys d)) +:+ ")".

(** The sentence of the specification on the order of the links: the list
    stored under a keyword is exactly the links of its fresh matching
    anchors, in document order. *)
Definition links_exactly_in_document_order (lower : string → string)
    (soup : node) (products : list string) : Prop :=
  ∀ d k vs,
    search_for_products lower soup products = Ok (Some d) →
    lookup_key k d = Some vs →
    vs = links lower k (Soup.find_all soup "a").

(** The traversal in the words of the specification: single steps up and
    down the tree, children counted from one. *)
Module Walk.

Definition parent (e : element) : option element :=
  match parents e with
  | [] => None
  | p :: ps => Some (Element p ps)
  end.

(** The ancestor [levels] levels up. *)
Fixpoint up (levels : nat) (e : element) : option element :=
  match levels with
  | O => Some e
  | S n => parent e ≫= up n
  end.

(** The [k]-th child of a tag, [k] counted from one. *)
Definition child (k : nat) (n : node) : option node :=
  match n, k with
  | Tag _ _ cs, S i => cs !! i
  | _, _ => None
  end.

(** Up five levels, then fourth child, fourth child, second child. *)
Definition indicator (a : element) : option node :=
  ancestor ← up 5 a;
  fourth ← child 4 (elt ancestor);
  fourth' ← child 4 fourth;
  child 2 fourth'.

End Walk.

(** ** The rest of the script: [main], [alert_me], [set_up_connection] *)

(** An exception raised by one of the libraries, with its [repr] and its
    [str]. *)
Record error : Type := Error { error_repr : string; error_str : string }.

(** What ends a run early. *)
Inductive failure : Type :=
| MatcherError (e : exn)    (* raised inside [search_for_products] *)
| LibraryError (e : error). (* raised by a call into a library *)

Inductive outcome (A : Type) : Type :=
| Returned (a : A)
| Uncaught (f : failure).
Arguments Returned {A} a.
Arguments Uncaught {A} f.

(** What the script reads of a [Credentials] object. *)
Record credentials : Type := Credentials {
  valid : bool;
  expired : bool;
  refresh_token : option string
}.

(** The file [token.pickle] as [pickle.load] finds it: the credentials it
    holds, or the exception that opening and unpickling it raises. *)
Definition token_file : Type := outcome credentials.

(** How the write of [token.pickle] ends: the file holds the pickled
    credentials, or an exception is raised and the file is left as
    [left_behind] says (as it was when [open] fails, truncated when
    [pickle.dump] fails). *)
Inductive write_result : Type :=
| Written
| WriteFailed (f : failure) (left_behind : option token_file).

(** What a run can change: the file [token.pickle] (absent, or a file),
    the text of [errors.log], the standard output and the messages that the
    mail service accepted. *)
Record world : Type := World {
  token_pickle : option token_file;
  errors_log : string;
  stdout : string;
  sent : list message
}.

(** The libraries and the configuration that the script calls into.  Each
    call returns or raises. *)
Record environment : Type := Environment {
  Resource : Type;
  str_lower : string → string;                   (* [str.lower] *)
  str_title : string → string;                   (* [str.title] *)
  target_mail_addr : string;                     (* [TARGET_MAIL_ADDR] *)
  from_mail_addr : string;                       (* [FROM_MAIL_ADDR] *)
  requests_get_text : outcome string;            (* [requests.get(SMARTBUY_URL).text] *)
  html_parser : string → node;                   (* [BeautifulSoup(html, "html.parser")] *)
  refresh : credentials → outcome credentials;   (* [creds.refresh(Request())] *)
  run_local_server : outcome credentials;        (* the consent flow of lines 95-96 *)
  pickle_dump : credentials → write_result;      (* the write of lines 98-99 *)
  build : credentials → outcome Resource;        (* [build("gmail", "v1", credentials=creds)] *)
  as_bytes : message → outcome string;           (* [MIMEText], its headers and [as_bytes()], lines 114-120 *)
  urlsafe_b64encode : string → string;           (* lines 120-121 *)
  execute : Resource → string → option error;    (* [send(...).execute()]: [None] when it returns *)
  open_errors_log : option failure;              (* [open("errors.log", "a")]: [None] when it opens *)
  now : string                                   (* [datetime.now()], formatted *)
}.

(** Truth value of [creds.refresh_token]. *)
Definition has_refresh_token (c : credentials) : bool :=
  match refresh_token c with
  | Some t => truthy t
  | None => false
  end.

(** The four strings that lines 69-76 write to [errors.log]. *)
Definition error_entry (timestamp : string) (e : error) : string :=
  ("****  " +:+ timestamp +:+ "  ****" +:+ nl)
  +:+ ("An error has occurred trying to login to Gmail or send the response mail."
         +:+ nl)
  +:+ error_repr e
  +:+ (nl +:+ nl).

(** The line that [print] of line 77 writes. *)
Definition error_print (e : error) : string :=
  "An error has occurred!" +:+ nl +:+ error_str e +:+ nl.

Section Script.

Variable E : environment.

(** Lines 25-28. *)
Definition get_page_data : outcome string := requests_get_text E.

(** Lines 83-89: the cached credentials, if the file exists. *)
Definition load_token (w : world) : outcome (option credentials) :=
  match token_pickle w with
  | None => Returned None
  | Some (Returned c) => Returned (Some c)
  | Some (Uncaught f) => Uncaught f
  end.

(** Lines 92-96: refresh the cached credentials or ask for consent. *)
Definition log_in (creds : option credentials) : outcome credentials :=
  match creds with
  | Some c =>
      if expired c && has_refresh_token c then refresh E c
      else run_local_server E
  | None => run_local_server E
  end.

(** Lines 92-101, when the cached credentials are missing or not valid. *)
Definition log_in_and_build (creds : option credentials) (w : world)
  : outcome (Resource E) * world :=
  match log_in creds with
  | Uncaught f => (Uncaught f, w)
  | Returned c' =>
      match pickle_dump E c' with
      | WriteFailed f left_behind =>
          (Uncaught f, World left_behind (errors_log w) (stdout w) (sent w))
      | Written =>
          (build E c',
           World (Some (Returned c')) (errors_log w) (stdout w) (sent w))
      end
  end.

(** Lines 80-102. *)
Definition set_up_connection (w : world) : outcome (Resource E) * world :=
  match load_token w with
  | Uncaught f => (Uncaught f, w)
  | Returned None => log_in_and_build None w
  | Returned (Some c) =>
      if negb (valid c) then log_in_and_build (Some c) w
      else (build E c, w)
  end.

(** Lines 114-123: the value of ["raw"] in the dictionary that
    [compose_message] returns. *)
Definition raw_message (products : matchset) : outcome string :=
  match as_bytes E (compose_message (str_title E) (target_mail_addr E)
                      (from_mail_addr E) products) with
  | Returned bytes => Returned (urlsafe_b64encode E bytes)
  | Uncaught f => Uncaught f
  end.

(** Lines 67-77: the handler of an exception of the send call. *)
Definition log_send_error (e : error) (w : world) : outcome unit * world :=
  match open_errors_log E with
  | Some f => (Uncaught f, w)
  | None =>
      (Returned (),
       World (token_pickle w)
             (errors_log w +:+ error_entry (now E) e)
             (stdout w +:+ error_print e)
             (sent w))
  end.

(** Lines 59-77. *)
Definition alert_me (products : matchset) (w : world) : outcome unit * world :=
  match set_up_connection w with
  | (Uncaught f, w') => (Uncaught f, w')
  | (Returned service, w') =>
      match raw_message products with
      | Uncaught f => (Uncaught f, w')
      | Returned raw =>
          match execute E service raw with
          | None =>
              (Returned (),
               World (token_pickle w') (errors_log w') (stdout w')
                     (sent w' ++ [compose_message (str_title E)
                                    (target_mail_addr E) (from_mail_addr E)
                                    products]))
          | Some e => log_send_error e w'
          end
      end
  end.

(** Lines 18-22. *)
Definition main (products : list string) (w : world) : outcome unit * world :=
  match get_page_data with
  | Uncaught f => (Uncaught f, w)
  | Returned html =>
      match search_for_products (str_lower E) (html_parser E html) products with
      | Raise e => (Uncaught (MatcherError e), w)
      | Ok None => (Returned (), w)
      | Ok (Some products_found) => alert_me products_found w
      end
  end.

End Script.

(** A sample environment: the page is [soup], logging in ends as [login]
    says, the files can be written, the message can be encoded and the mail
    service answers as [answer] says. *)
Module SampleRun.

Definition granted : credentials := Credentials true false (Some "r").

Definition env (page : outcome string) (soup : node)
    (login : outcome credentials) (answer : option error) : environment :=
  {| Resource := credentials;
     str_lower := ascii_lower;
     str_title := ascii_title;
     target_mail_addr := "to@example.org";
     from_mail_addr := "from@example.org";
     requests_get_text := page;
     html_parser := λ _, soup;
     refresh := λ _, login;
     run_local_server := login;
     pickle_dump := λ _, Written;
     build := λ c, Returned c;
     as_bytes := λ m, Returned (msg_subject m +:+ nl +:+ msg_body m);
     urlsafe_b64encode := λ bytes, bytes;
     execute := λ _ _, answer;
     open_errors_log := None;
     now := "2020-01-01 00:00:00" |}.


Definition empty_world : world := World None EmptyString EmptyString [].

End SampleRun.

(** * Properties *)

(** ** The substring test *)

Section StrIn.

Lemma append_nil (s : string) : EmptyString +:+ s = s.
Proof. reflexivity. Qed.

Lemma append_cons (c : ascii) (x s : string) :
  String c x +:+ s = String c (x +:+ s).
Proof. reflexivity. Qed.

Lemma prefix_spec (x s : string) :
  String.prefix x s = true ↔ ∃ post, s = x +:+ post.
Proof.
  revert s. induction x as [|c x IH]; intros s.
  - split; [intros _; by exists s | by destruct s].
  - setoid_rewrite append_cons. destruct s as [|d s]; simpl.
    + split; [done | intros [post H]; discriminate H].
    + destruct (ascii_dec c d) as [->|Hne].
      * rewrite IH. split; intros [post H]; exists post.
        -- by rewrite H.
        -- by injection H.
      * split; [done | intros [post H]; injection H; congruence].
Qed.

Lemma str_in_spec (x s : string) :
  str_in x s = true ↔ substring_of x s.
Proof.
  unfold substring_of.
  induction s as [|c s IH].
  - cbn [str_in]. rewrite orb_false_r, prefix_spec. split.
    + intros [post H]. by exists EmptyString, post.
    + intros [[|d pre] [post H]]; [by exists post | discriminate H].
  - cbn [str_in]. rewrite orb_true_iff, prefix_spec, IH. split.
    + intros [[post H]|(pre & post & H)].
      * by exists EmptyString, post.
      * exists (String c pre), post. by rewrite append_cons, H.
    + intros [[|d pre] [post H]].
      * left. by exists post.
      * right. exists pre, post. rewrite append_cons in H. by injection H.
Qed.


End StrIn.

(** ** The match set *)

Section MatchSet.

Implicit Types (k p v : string) (d : matchset) (vs : list string).

Lemma eqb_decide k p : String.eqb k p = bool_decide (k = p).
Proof.
  destruct (String.eqb_spec k p) as [->|Hne].
  - by rewrite bool_decide_eq_true_2.
  - by rewrite bool_decide_eq_false_2.
Qed.

Lemma get_list_setdefault_append k p v d :
  get_list k (setdefault_append p v d)
  = if bool_decide (p = k) then get_list k d ++ [v] else get_list k d.
Proof.
  unfold get_list. induction d as [|[k' vs] d IH]; simpl.
  - rewrite eqb_decide. by case_bool_decide.
  - destruct (String.eqb_spec k' p) as [->|Hne]; simpl.
    + rewrite eqb_decide. by repeat case_bool_decide; simplify_eq.
    + rewrite eqb_decide. repeat case_bool_decide; simplify_eq; try done.
      all: rewrite IH; by rewrite ?bool_decide_eq_true_2, ?bool_decide_eq_false_2.
Qed.

Lemma get_list_extend k p vs d :
  get_list k (extend p vs d)
  = if bool_decide (p = k) then get_list k d ++ vs else get_list k d.
Proof.
  unfold extend. revert d. induction vs as [|v vs IH]; intros d; simpl.
  - case_bool_decide; by rewrite ?app_nil_r.
  - rewrite IH, get_list_setdefault_append.
    case_bool_decide; by rewrite <- ?app_assoc.
Qed.


Lemma lookup_key_get_list k vs d :
  lookup_key k d = Some vs → get_list k d = vs.
Proof. unfold get_list. by intros ->. Qed.


(** An entry of the dictionary after [setdefault(p, []).append(v)] is an
    old entry, or the entry of [p], which is then not empty. *)
Lemma in_setdefault_append k vs p v d :
  In (k, vs) (setdefault_append p v d) →
  In (k, vs) d ∨ (k = p ∧ vs ≠ []).
Proof.
  induction d as [|[k' vs'] d IH]; simpl.
  - intros [[= <- <-]|[]]. by right.
  - destruct (String.eqb_spec k' p) as [->|Hne]; simpl.
    + intros [[= <- <-]|H]; [right | tauto].
      split; [done | by destruct vs'].
    + intros [H|H]; [tauto | destruct (IH H); tauto].
Qed.

Lemma in_extend k vs p ws d :
  In (k, vs) (extend p ws d) →
  In (k, vs) d ∨ (k = p ∧ vs ≠ [] ∧ ws ≠ []).
Proof.
  unfold extend. revert d. induction ws as [|w ws IH]; intros d; simpl.
  - tauto.
  - intros H. destruct (IH _ H) as [H'|(-> & ? & ?)]; [|by right].
    destruct (in_setdefault_append _ _ _ _ _ H') as [|[-> ?]]; [tauto|].
    by right.
Qed.

Lemma keys_setdefault_append p v d :
  keys (setdefault_append p v d)
  = if bool_decide (p ∈ keys d) then keys d else keys d ++ [p].
Proof.
  induction d as [|[k' vs] d IH]; simpl; [done|].
  destruct (String.eqb_spec k' p) as [->|Hne]; simpl.
  - rewrite bool_decide_eq_true_2; [done | by left].
  - rewrite IH. case_bool_decide as Hin.
    + rewrite bool_decide_eq_true_2; [done | by right].
    + rewrite bool_decide_eq_false_2; [done|].
      intros [?|?]%elem_of_cons; by simplify_eq.
Qed.

Lemma keys_extend p vs d :
  keys (extend p vs d)
  = if bool_decide (vs = [] ∨ p ∈ keys d) then keys d else keys d ++ [p].
Proof.
  unfold extend. revert d. induction vs as [|v vs IH]; intros d; cbn [foldl].
  - rewrite bool_decide_eq_true_2; [done | by left].
  - rewrite IH, keys_setdefault_append.
    destruct (decide (p ∈ keys d)) as [Hin|Hin].
    + rewrite (bool_decide_eq_true_2 (p ∈ keys d)) by done.
      by rewrite !bool_decide_eq_true_2 by (by right).
    + rewrite (bool_decide_eq_false_2 (p ∈ keys d)) by done.
      rewrite bool_decide_eq_true_2
      by (right; apply elem_of_app; right; by apply list_elem_of_singleton).
      rewrite bool_decide_eq_false_2; [done | by intros [|]].
Qed.

Lemma first_occurrences_ext (seen seen' l : list string) :
  (∀ x, x ∈ seen ↔ x ∈ seen') →
  first_occurrences seen l = first_occurrences seen' l.
Proof.
  revert seen seen'. induction l as [|x l IH]; intros seen seen' H; [done|].
  simpl. rewrite (bool_decide_ext _ _ (H x)). case_bool_decide.
  - by apply IH.
  - f_equal. apply IH. intros y. rewrite !elem_of_cons. by rewrite H.
Qed.

Lemma first_occurrences_fresh (seen l : list string) :
  NoDup seen → NoDup (seen ++ first_occurrences seen l).
Proof.
  revert seen. induction l as [|x l IH]; intros seen Hnd; simpl.
  - by rewrite app_nil_r.
  - case_bool_decide as Hin; [by apply IH|].
    assert (NoDup (x :: seen)) as Hnd' by (by constructor).
    apply IH in Hnd'. simpl in Hnd'. by rewrite <- Permutation_middle.
Qed.



End MatchSet.

(** ** Loops that may raise *)

Section Loops.

Context {A S : Type}.
Implicit Types (body : A → S → result S) (xs : list A) (s : S).

Lemma for_each_skip body (keep : A → bool) xs s :
  (∀ x s', keep x = false → body x s' = Ok s') →
  for_each body xs s = for_each body (List.filter keep xs) s.
Proof.
  intros Hskip. revert s. induction xs as [|x xs IH]; intros s; simpl.
  - done.
  - destruct (keep x) eqn:Hk; simpl.
    + destruct (body x s); simpl; [apply IH | done].
    + rewrite (Hskip _ _ Hk). simpl. apply IH.
Qed.

End Loops.

(** ** The two loops of [search_for_products] in closed form *)

Section ClosedForm.

Variable lower : string → string.
Implicit Types (p k : string) (a : element) (a_tags : list element)
  (products : list string) (d : matchset).

Lemma visit_cases p a d :
  visit lower p a d =
  if condition lower p a then
    match date_text_of a with
    | Ok t => Ok (if date_is_today t then setdefault_append p (href a) d else d)
    | Raise e => Raise e
    end
  else Ok d.
Proof.
  unfold visit. destruct (condition lower p a); [|done].
  destruct (date_text_of a) as [t|e]; simpl; [|done].
  by destruct (date_is_today t).
Qed.

Lemma inner_loop p a_tags d :
  for_each (visit lower p) a_tags d =
  match first_error lower p a_tags with
  | Some e => Raise e
  | None => Ok (extend p (links lower p a_tags) d)
  end.
Proof.
  revert d. induction a_tags as [|a rest IH]; intros d; [done|].
  cbn [for_each first_error]. rewrite visit_cases.
  unfold links, hit, fresh. cbn [List.filter].
  destruct (condition lower p a); simpl; [|apply IH].
  destruct (date_text_of a) as [t|e]; simpl; [|done].
  destruct (date_is_today t); simpl; apply IH.
Qed.

Lemma outer_loop products a_tags d :
  for_each (λ p, for_each (visit lower p) a_tags) products d =
  match first_error_all lower products a_tags with
  | Some e => Raise e
  | None => Ok (collected lower products a_tags d)
  end.
Proof.
  revert d. induction products as [|p rest IH]; intros d; [done|].
  cbn [for_each first_error_all]. rewrite inner_loop.
  destruct (first_error lower p a_tags); simpl; [done | apply IH].
Qed.

Lemma search_tags_closed a_tags products :
  search_tags lower a_tags products =
  match first_error_all lower (map lower products) a_tags with
  | Some e => Raise e
  | None =>
      Ok (match collected lower (map lower products) a_tags [] with
          | [] => None
          | d => Some d
          end)
  end.
Proof.
  unfold search_tags. rewrite outer_loop.
  destruct (first_error_all _ _ _); simpl; [done|].
  by destruct (collected _ _ _ _).
Qed.

(** *** Which traversal fails *)

Lemma first_error_Some p a_tags e :
  first_error lower p a_tags = Some e →
  ∃ a, In a a_tags ∧ condition lower p a = true ∧ date_text_of a = Raise e.
Proof.
  induction a_tags as [|a rest IH]; simpl; [done|].
  destruct (condition lower p a) eqn:Hc.
  - destruct (date_text_of a) as [t|e'] eqn:Hd.
    + intros H. destruct (IH H) as (b & ? & ? & ?). exists b. tauto.
    + intros [= ->]. exists a. tauto.
  - intros H. destruct (IH H) as (b & ? & ? & ?). exists b. tauto.
Qed.

Lemma first_error_None p a_tags a :
  first_error lower p a_tags = None → In a a_tags →
  condition lower p a = true → ∃ t, date_text_of a = Ok t.
Proof.
  induction a_tags as [|b rest IH]; simpl; [done|].
  intros H [->|Hin] Hc.
  - rewrite Hc in H. destruct (date_text_of a) as [t|e]; [by exists t | done].
  - apply IH; [|done..].
    destruct (condition lower p b); [|done].
    by destruct (date_text_of b).
Qed.

Lemma first_error_all_Some products a_tags e :
  first_error_all lower products a_tags = Some e →
  ∃ p a, In p products ∧ In a a_tags ∧
         condition lower p a = true ∧ date_text_of a = Raise e.
Proof.
  induction products as [|p rest IH]; simpl; [done|].
  destruct (first_error lower p a_tags) as [e'|] eqn:He.
  - intros [= ->]. destruct (first_error_Some _ _ _ He) as (a & ? & ? & ?).
    exists p, a. tauto.
  - intros H. destruct (IH H) as (q & a & ? & ? & ? & ?). exists q, a. tauto.
Qed.

Lemma first_error_all_None products a_tags p a :
  first_error_all lower products a_tags = None →
  In p products → In a a_tags →
  condition lower p a = true → ∃ t, date_text_of a = Ok t.
Proof.
  induction products as [|q rest IH]; simpl; [done|].
  destruct (first_error lower q a_tags) as [e'|] eqn:He; [done|].
  intros H [->|Hin] Ha Hc.
  - by eapply first_error_None.
  - by apply IH.
Qed.

(** *** What is collected *)

Lemma get_list_collected k products a_tags d :
  get_list k (collected lower products a_tags d) =
  get_list k d ++
  concat (repeat (links lower k a_tags) (count_occ string_dec products k)).
Proof.
  unfold collected. revert d.
  induction products as [|p rest IH]; intros d; simpl.
  - by rewrite app_nil_r.
  - rewrite IH, get_list_extend.
    destruct (string_dec p k) as [->|Hne].
    + rewrite bool_decide_eq_true_2 by done. simpl. by rewrite app_assoc.
    + by rewrite bool_decide_eq_false_2.
Qed.

Lemma in_collected k vs products a_tags d :
  In (k, vs) (collected lower products a_tags d) →
  In (k, vs) d ∨ (In k products ∧ vs ≠ [] ∧ links lower k a_tags ≠ []).
Proof.
  unfold collected. revert d.
  induction products as [|p rest IH]; intros d; simpl; [tauto|].
  intros H. destruct (IH _ H) as [H'|(? & ? & ?)]; [|tauto].
  destruct (in_extend _ _ _ _ _ H') as [|(-> & ? & ?)]; tauto.
Qed.

Lemma keys_collected products a_tags d :
  keys (collected lower products a_tags d)
  = keys d ++
    first_occurrences (keys d) (List.filter (has_links lower a_tags) products).
Proof.
  unfold collected. revert d.
  induction products as [|p rest IH]; intros d; simpl.
  - by rewrite app_nil_r.
  - rewrite IH, keys_extend. unfold has_links at 2.
    destruct (links lower p a_tags) as [|v vs] eqn:Hl.
    { rewrite bool_decide_eq_true_2; [done | by left]. }
    simpl. destruct (decide (p ∈ keys d)) as [Hin|Hin].
    + rewrite bool_decide_eq_true_2 by (by right).
      by rewrite bool_decide_eq_true_2.
    + rewrite bool_decide_eq_false_2 by (by intros [|]).
      rewrite (bool_decide_eq_false_2 (p ∈ keys d)) by done.
      rewrite <- app_assoc. simpl. do 2 f_equal.
      apply first_occurrences_ext. intros x.
      rewrite elem_of_app, !elem_of_cons, elem_of_nil. tauto.
Qed.

Lemma links_nonempty k a_tags :
  links lower k a_tags ≠ [] ↔ ∃ a, In a a_tags ∧ hit lower k a = true.
Proof.
  unfold links. split.
  - destruct (List.filter (hit lower k) a_tags) as [|a l] eqn:Hf; [done|].
    intros _. exists a. apply filter_In. rewrite Hf. by left.
  - intros (a & Hin & Hh) Hnil. apply map_eq_nil in Hnil.
    assert (In a (List.filter (hit lower k) a_tags)) as H
      by (apply filter_In; tauto).
    by rewrite Hnil in H.
Qed.

End ClosedForm.

(** ** The document tree *)

Section Tree.

Lemma node_rect_list (P : node → Prop) :
  (∀ s, P (NavigableString s)) →
  (∀ name attrs cs, Forall P cs → P (Tag name attrs cs)) →
  ∀ n, P n.
Proof.
  intros Hs Ht. fix IH 1. intros [s|name attrs cs]; [apply Hs|].
  apply Ht. induction cs as [|c cs IHcs]; constructor; [apply IH | apply IHcs].
Qed.

(** The parents recorded with an element are its ancestors in the tree. *)
Lemma subtree_ancestry (root n : node) :
  ∀ ps e, ancestry root n ps → In e (Soup.subtree ps n) →
          ancestry root (elt e) (parents e).
Proof.
  induction n as [s|name attrs cs IH] using node_rect_list; intros ps e Hn.
  - intros [<-|[]]. done.
  - cbn [Soup.subtree]. intros [<-|Hin]; [done|].
    apply in_flat_map in Hin as (c & Hc & He).
    rewrite Forall_forall in IH.
    eapply (IH c); [by apply list_elem_of_In | | done].
    by split.
Qed.

Lemma find_all_ancestry (soup : node) (name : string) (a : element) :
  In a (Soup.find_all soup name) →
  ancestry soup (elt a) (parents a) ∧ Soup.has_name name (elt a) = true.
Proof.
  unfold Soup.find_all. rewrite filter_In. intros [Hin Hname].
  split; [|done]. unfold Soup.descendants in Hin. simpl in Hin.
  destruct soup as [s|nm attrs cs]; [done|].
  apply in_flat_map in Hin as (c & Hc & He).
  by eapply (subtree_ancestry _ c [Tag nm attrs cs]).
Qed.

End Tree.

(** ** The fixed traversal *)

Section Traversal.

Lemma up_five (a : element) :
  Walk.up 5 a =
  match islice (parents a) 4 with
  | [] => None
  | p :: ps => Some (Element p ps)
  end.
Proof.
  destruct a as [n [|p1 [|p2 [|p3 [|p4 [|p5 ps]]]]]]; reflexivity.
Qed.

Lemma child_index (k : nat) (n : node) :
  Walk.child (S k) n = match Soup.children n with
                       | Ok cs => cs !! k
                       | Raise _ => None
                       end.
Proof. by destruct n. Qed.

(** The program reads the text of the node that the walk reaches, and
    raises when the walk reaches no node. *)
Lemma date_text_of_walk (a : element) :
  match Walk.indicator a with
  | Some n => date_text_of a = Ok (Soup.text n)
  | None => ∃ e, date_text_of a = Raise e
  end.
Proof.
  unfold Walk.indicator, date_text_of. rewrite up_five.
  destruct (islice (parents a) 4) as [|p5 ps]; simpl; [by eexists|].
  rewrite child_index. unfold index.
  destruct (Soup.children p5) as [c1|e]; simpl; [|by eexists].
  destruct (c1 !! 3) as [n1|]; simpl; [|by eexists].
  rewrite child_index.
  destruct (Soup.children n1) as [c2|e]; simpl; [|by eexists].
  destruct (c2 !! 3) as [n2|]; simpl; [|by eexists].
  rewrite child_index.
  destruct (Soup.children n2) as [c3|e]; simpl; [|by eexists].
  destruct (c3 !! 1) as [n3|]; simpl; [done | by eexists].
Qed.

(** Fewer than five ancestors: [next] finds the iterator exhausted. *)
Lemma date_text_of_shallow (a : element) :
  length (parents a) < 5 → date_text_of a = Raise StopIteration.
Proof.
  destruct a as [n [|p1 [|p2 [|p3 [|p4 [|p5 ps]]]]]]; simpl; try done. lia.
Qed.

End Traversal.

(** ** The claims *)

Import Sample.

(** [.string] looks through a chain of only children. *)
Example string_of_only_child :
  Soup.string_of (anchor "http://x/1" [Tag "b" ∅ [txt "Widget Pro"]])
  = Some "Widget Pro" ∧
  Soup.string_of (anchor "http://x/1" [txt "Widget "; Tag "b" ∅ [txt "Pro"]])
  = None.
Proof. by split. Qed.

Example find_all_sample :
  Soup.find_all (page [row widget hours5]) "a" = [widget_in hours5].
Proof. reflexivity. Qed.

(** C1. For an anchor that passes the test of line 42, the matcher reads the
    text of the node reached by going up five levels from the anchor, then
    to the fourth child, to its fourth child and to the second child of
    that; the link is stored exactly when that text is fresh, and when the
    walk reaches no node the matcher raises. *)
Theorem C1_fixed_traversal (lower : string → string) (p : string)
    (a : element) (matches : matchset) :
  condition lower p a = true →
  match Walk.indicator a with
  | Some n =>
      date_text_of a = Ok (Soup.text n) ∧
      visit lower p a matches =
        Ok (if date_is_today (Soup.text n)
            then setdefault_append p (href a) matches
            else matches)
  | None => ∃ e, date_text_of a = Raise e ∧ visit lower p a matches = Raise e
  end.
Proof.
  intros Hc. rewrite visit_cases, Hc.
  pose proof (date_text_of_walk a) as H.
  destruct (Walk.indicator a) as [n|].
  - by rewrite H.
  - destruct H as [e He]. exists e. by rewrite He.
Qed.

Lemma C1_witness :
  date_text_of (widget_in hours5) = Ok "5 שעות" ∧
  visit ascii_lower "widget" (widget_in hours5) []
  = Ok [("widget", ["http://x/1"])].
Proof.
  exact (C1_fixed_traversal ascii_lower "widget" (widget_in hours5) [] eq_refl).
Defined.

Lemma stale_only (lower : string → string) (a_tags : list element)
    (products : list string) :
  (∀ k a, In k (map lower products) → In a a_tags →
          condition lower k a = true →
          ∃ t, date_text_of a = Ok t ∧ date_is_today t = false) →
  search_tags lower a_tags products = Ok None.
Proof.
  intros Hstale. rewrite search_tags_closed.
  destruct (first_error_all _ _ _) as [e|] eqn:He.
  - apply first_error_all_Some in He as (k & a & Hk & Ha & Hc & Hd).
    destruct (Hstale k a Hk Ha Hc) as (t & Ht & _). congruence.
  - destruct (collected _ _ _ _) as [|[k vs] d] eqn:Hd; [done|].
    assert (In (k, vs) (collected lower (map lower products) a_tags [])) as Hin
      by (rewrite Hd; by left).
    apply in_collected in Hin as [[]|(Hk & _ & Hl)].
    apply links_nonempty in Hl as (a & Ha & Hh).
    unfold hit, fresh in Hh. apply andb_true_iff in Hh as [Hc Hf].
    destruct (Hstale k a Hk Ha Hc) as (t & Ht & Hs). rewrite Ht in Hf. congruence.
Qed.

(** C2. The freshness test accepts a text iff it contains the hours marker
    or the one-day marker: "5 שעות" and "1 ימים" are fresh, "2 ימים" is not;
    an anchor whose indicator is not fresh adds nothing, and when every
    candidate is stale (as the one with "3 ימים") the result is no match. *)
Theorem C2_freshness_test :
  (∀ t, date_is_today t = true ↔
        substring_of "שעות" t ∨ substring_of "1 ימים" t) ∧
  date_is_today "5 שעות" = true ∧
  date_is_today "1 ימים" = true ∧
  date_is_today "2 ימים" = false ∧
  (∀ lower p a d t, date_text_of a = Ok t → date_is_today t = false →
                    visit lower p a d = Ok d) ∧
  (∀ lower soup products,
     (∀ k a, In k (map lower products) → In a (Soup.find_all soup "a") →
             condition lower k a = true →
             ∃ t, date_text_of a = Ok t ∧ date_is_today t = false) →
     search_for_products lower soup products = Ok None) ∧
  search_for_products ascii_lower (page [row widget days3]) ["widget"] = Ok None.
Proof.
  split; [|repeat split; try reflexivity].
  - intros t. unfold date_is_today. by rewrite orb_true_iff, !str_in_spec.
  - intros lower p a d t Ht Hs. rewrite visit_cases, Ht, Hs.
    by destruct (condition lower p a).
  - intros lower soup products. apply stale_only.
Qed.





(** C3 as stated fails for a link that holds text beside a tag: its direct
    text "Widget " contains the keyword, yet it has no [.string] and the
    test of line 42 fails. *)
Example mixed_link_is_skipped :
  direct_text mixed = Some "Widget " ∧
  search_for_products ascii_lower (page [row mixed hours5]) ["Widget"]
  = Ok None.
Proof. by split. Qed.


(** C10. The one-day test is a substring test: every text in which
    "1 ימים" occurs is fresh, so "11 ימים" and "21 ימים" are fresh and a
    link with such an indicator is reported. *)
Theorem C10_one_day_marker_is_substring :
  (∀ pre post, date_is_today (pre +:+ "1 ימים" +:+ post) = true) ∧
  date_is_today "11 ימים" = true ∧
  date_is_today "21 ימים" = true ∧
  search_for_products ascii_lower (page [row widget days11]) ["widget"]
  = Ok (Some [("widget", ["http://x/1"])]).
Proof.
  repeat split; try reflexivity.
  intros pre post. unfold date_is_today. apply orb_true_iff. right.
  apply str_in_spec. by exists pre, post.
Qed.

Lemma eligible_false (a : element) :
  eligible a = false ↔ Soup.string_of (elt a) = None ∨ href a = EmptyString.
Proof.
  unfold eligible. destruct (Soup.string_of (elt a)) as [t|].
  - destruct (href a); simpl; split; try tauto; try done.
    intros [|]; done.
  - tauto.
Qed.

Lemma visit_ineligible (lower : string → string) (p : string) (a : element)
    (d : matchset) :
  eligible a = false → visit lower p a d = Ok d.
Proof.
  intros He. rewrite visit_cases. unfold condition.
  unfold eligible, href in He.
  destruct (Soup.string_of (elt a)) as [t|]; [|done].
  rewrite He. by rewrite andb_false_r.
Qed.

Lemma outer_loop_ineligible (lower : string → string) (products : list string)
    (a_tags : list element) (d : matchset) :
  for_each (λ p, for_each (visit lower p) a_tags) products d =
  for_each (λ p, for_each (visit lower p) (List.filter eligible a_tags))
    products d.
Proof.
  revert d. induction products as [|p ps IH]; intros d; [done|].
  cbn [for_each].
  rewrite <- (for_each_skip (visit lower p) eligible a_tags d)
    by (intros; by apply visit_ineligible).
  destruct (for_each (visit lower p) a_tags d); simpl; [apply IH | done].
Qed.

(** C4, as amended. An anchor whose [.string] is [None] (it has no child
    or several children, or its chain of only children does not end in a
    text), or whose link is empty or missing, is passed over for every
    keyword (nothing is stored and its surroundings are not even
    inspected), and the result of the matcher is the result on the other
    anchors alone. *)
Theorem C4_ineligible_anchor_never_included (lower : string → string) :
  (∀ p a d,
     Soup.string_of (elt a) = None ∨ href a = EmptyString →
     visit lower p a d = Ok d) ∧
  (∀ p a d name attrs cs,
     elt a = Tag name attrs cs → length cs ≠ 1 →
     visit lower p a d = Ok d) ∧
  (∀ soup products,
     search_for_products lower soup products =
     search_tags lower (List.filter eligible (Soup.find_all soup "a")) products).
Proof.
  split; [|split].
  - intros p a d H. apply visit_ineligible. by apply eligible_false.
  - intros p a d name attrs cs Ha Hlen. apply visit_ineligible, eligible_false.
    left. rewrite Ha. by destruct cs as [|c [|c' cs]].
  - intros soup products. unfold search_for_products, search_tags.
    by rewrite outer_loop_ineligible.
Qed.

(** C4 as stated fails for a link whose text sits inside nested tags: no
    child of the link is a text node, yet the link has a [.string] and is
    reported. *)
Lemma C4_counterexample :
  ¬ never_included_as_specified ascii_lower (anchor_in nested hours5).
Proof.
  intros H. specialize (H (or_intror eq_refl) "widget" []).
  vm_compute in H. discriminate H.
Qed.

(** The matcher on the page of that link. *)
Example nested_link_is_reported :
  direct_text nested = None ∧
  search_for_products ascii_lower (page [row nested hours5]) ["Widget"]
  = Ok (Some [("widget", ["http://x/1"])]).
Proof. by split. Qed.

(** C5. When the matcher returns, it returns [None] or a dictionary with at
    least one key (and no key twice); it returns [None] exactly when no
    keyword and anchor pass both tests; every key is a keyword for which
    some anchor passes both tests, and every list stored is non-empty. *)
Theorem C5_absent_or_nonempty (lower : string → string) (soup : node)
    (products : list string) (r : option matchset) :
  search_for_products lower soup products = Ok r →
  r ≠ Some [] ∧
  (r = None ↔
   ∀ k a, In k (map lower products) → In a (Soup.find_all soup "a") →
          hit lower k a = false) ∧
  (∀ d, r = Some d → NoDup (keys d)) ∧
  (∀ d k vs, r = Some d → In (k, vs) d →
     vs ≠ [] ∧ In k (map lower products) ∧
     ∃ a, In a (Soup.find_all soup "a") ∧ hit lower k a = true).
Proof.
  unfold search_for_products. rewrite search_tags_closed.
  set (ks := map lower products). set (a_tags := Soup.find_all soup "a").
  destruct (first_error_all _ _ _); [done|]. intros [= <-].
  assert (∀ k vs, In (k, vs) (collected lower ks a_tags []) →
            vs ≠ [] ∧ In k ks ∧ ∃ a, In a a_tags ∧ hit lower k a = true)
    as Hentries.
  { intros k vs Hin. apply in_collected in Hin as [[]|(Hk & Hvs & Hl)].
    by apply links_nonempty in Hl. }
  split; [by destruct (collected _ _ _ _)|]. split; [|split].
  - split.
    + intros Hnone k a Hk Ha. destruct (hit lower k a) eqn:Hh; [|done].
      assert (collected lower ks a_tags [] = []) as Hnil
        by (by destruct (collected _ _ _ _)).
      pose proof (get_list_collected lower k ks a_tags []) as Hg.
      rewrite Hnil in Hg. simpl in Hg.
      assert (links lower k a_tags ≠ []) as Hl
        by (apply links_nonempty; eauto).
      assert (count_occ string_dec ks k > 0) as Hc by (by apply count_occ_In).
      destruct (count_occ string_dec ks k) as [|n]; [lia|].
      simpl in Hg. symmetry in Hg. apply app_eq_nil in Hg as [? _]. done.
    + intros Hno. destruct (collected _ _ _ _) as [|[k vs] d] eqn:Hd; [done|].
      destruct (Hentries k vs) as (_ & Hk & a & Ha & Hh); [by left|].
      rewrite (Hno k a Hk Ha) in Hh. done.
  - intros d Hd.
    assert (d = collected lower ks a_tags []) as ->
      by (destruct (collected _ _ _ _); by simplify_eq).
    rewrite keys_collected. apply (first_occurrences_fresh []). constructor.
  - intros d k vs Hd Hin. apply Hentries.
    destruct (collected _ _ _ _); [done|]. by injection Hd as ->.
Qed.

Lemma C5_witness :
  Some [("widget", ["http://x/1"])] ≠ Some [] ∧
  (Some [("widget", ["http://x/1"])] = None ↔
   ∀ k a, In k (map ascii_lower ["Widget"]) →
          In a (Soup.find_all (page [row widget hours5]) "a") →
          hit ascii_lower k a = false) ∧
  (∀ d, Some [("widget", ["http://x/1"])] = Some d → NoDup (keys d)) ∧
  (∀ d k vs, Some [("widget", ["http://x/1"])] = Some d → In (k, vs) d →
     vs ≠ [] ∧ In k (map ascii_lower ["Widget"]) ∧
     ∃ a, In a (Soup.find_all (page [row widget hours5]) "a") ∧
          hit ascii_lower k a = true).
Proof.
  exact (C5_absent_or_nonempty ascii_lower (page [row widget hours5])
           ["Widget"] _ eq_refl).
Defined.

(** C6. When some keyword and anchor pass the test of line 42 and the
    traversal from that anchor fails, the matcher raises and returns no
    result. With fewer than five ancestors the exception is [StopIteration],
    with a missing child [IndexError], with a text node where a tag is
    expected [AttributeError]. *)
Theorem C6_structure_error_propagates :
  (∀ lower soup products k a e,
     In k (map lower products) → In a (Soup.find_all soup "a") →
     condition lower k a = true → date_text_of a = Raise e →
     ∃ e', search_for_products lower soup products = Raise e') ∧
  (∀ a, length (parents a) < 5 → date_text_of a = Raise StopIteration) ∧
  search_for_products ascii_lower (page [widget]) ["widget"]
  = Raise StopIteration ∧
  search_for_products ascii_lower
    (page [div [div [div [div [div [widget]]]]]]) ["widget"]
  = Raise IndexError ∧
  search_for_products ascii_lower
    (page [div [div [div [div [div [widget]]]]; txt "a"; txt "b"; txt "c"]])
    ["widget"]
  = Raise AttributeError.
Proof.
  split; [|split; [apply date_text_of_shallow | repeat split]].
  intros lower soup products k a e Hk Ha Hc Hd.
  unfold search_for_products. rewrite search_tags_closed.
  destruct (first_error_all _ _ _) as [e'|] eqn:He; [by exists e'|].
  destruct (first_error_all_None _ _ _ _ _ He Hk Ha Hc) as [t Ht]. congruence.
Qed.

(** C7, as amended. When the matcher returns a dictionary, its keys are the
    keywords that have a fresh matching anchor, in the order of their first
    occurrence in the lower-cased keyword list; the list stored under a
    keyword is the links of its fresh matching anchors in document order,
    repeated once for each occurrence of the keyword in the lower-cased
    keyword list; it is exactly that list when the keyword occurs once. *)
Theorem C7_links_in_document_order (lower : string → string) (soup : node)
    (products : list string) (d : matchset) :
  search_for_products lower soup products = Ok (Some d) →
  keys d = first_occurrences []
             (List.filter (has_links lower (Soup.find_all soup "a"))
                          (map lower products)) ∧
  ∀ k vs, lookup_key k d = Some vs →
    let in_order := links lower k (Soup.find_all soup "a") in
    let times := count_occ string_dec (map lower products) k in
    vs = concat (repeat in_order times) ∧
    (times = 1 → vs = in_order).
Proof.
  unfold search_for_products. rewrite search_tags_closed.
  destruct (first_error_all _ _ _); [done|]. intros Hd.
  assert (d = collected lower (map lower products) (Soup.find_all soup "a") [])
    as -> by (destruct (collected _ _ _ _); by simplify_eq).
  split; [by rewrite keys_collected|].
  intros k vs Hk.
  apply lookup_key_get_list in Hk. rewrite get_list_collected in Hk.
  simpl in Hk. subst vs. split; [done|].
  intros ->. simpl. by rewrite app_nil_r.
Qed.

Lemma C7_witness :
  keys [("widget", ["http://x/1"; "http://x/1"]); ("pro", ["http://x/1"])]
  = first_occurrences []
      (List.filter
         (has_links ascii_lower (Soup.find_all (page [row widget hours5]) "a"))
         (map ascii_lower ["Widget"; "sofa"; "WIDGET"; "Pro"])) ∧
  ∀ k vs,
    lookup_key k [("widget", ["http://x/1"; "http://x/1"]);
                  ("pro", ["http://x/1"])] = Some vs →
    vs = concat (repeat (links ascii_lower k
                           (Soup.find_all (page [row widget hours5]) "a"))
                        (count_occ string_dec
                           (map ascii_lower ["Widget"; "sofa"; "WIDGET"; "Pro"])
                           k)) ∧
    (count_occ string_dec
       (map ascii_lower ["Widget"; "sofa"; "WIDGET"; "Pro"]) k = 1 →
     vs = links ascii_lower k (Soup.find_all (page [row widget hours5]) "a")).
Proof.
  exact (C7_links_in_document_order ascii_lower (page [row widget hours5])
           ["Widget"; "sofa"; "WIDGET"; "Pro"]
           [("widget", ["http://x/1"; "http://x/1"]); ("pro", ["http://x/1"])]
           eq_refl).
Defined.

(** C7 as stated fails when a keyword occurs twice in the list: the link of
    the one matching anchor is stored twice. *)
Lemma C7_counterexample :
  ¬ links_exactly_in_document_order ascii_lower (page [row widget hours5])
      ["Widget"; "WIDGET"].
Proof.
  intros H.
  specialize (H [("widget", ["http://x/1"; "http://x/1"])] "widget"
                ["http://x/1"; "http://x/1"] eq_refl eq_refl).
  vm_compute in H. discriminate H.
Qed.

(** ** The message *)

Section Strings.

Lemma append_assoc (x y z : string) : (x +:+ y) +:+ z = x +:+ y +:+ z.
Proof. induction x as [|c x IH]; [done|]. by rewrite !append_cons, IH. Qed.

Lemma append_nil_r (x : string) : x +:+ EmptyString = x.
Proof. induction x as [|c x IH]; [done|]. by rewrite append_cons, IH. Qed.

Lemma join_empty_cons (x : string) (l : list string) :
  join EmptyString (x :: l) = x +:+ join EmptyString l.
Proof. destruct l; simpl; [by rewrite append_nil_r | done]. Qed.

Lemma substring_of_refl (x : string) : substring_of x x.
Proof. exists EmptyString, EmptyString. by rewrite append_nil_r. Qed.

Lemma substring_of_trans (x y z : string) :
  substring_of x y → substring_of y z → substring_of x z.
Proof.
  intros (p & q & ->) (p' & q' & ->).
  exists (p' +:+ p), (q +:+ q'). by rewrite !append_assoc.
Qed.

Lemma substring_of_append_l (x y z : string) :
  substring_of x y → substring_of x (y +:+ z).
Proof. intros (p & q & ->). exists p, (q +:+ z). by rewrite !append_assoc. Qed.

Lemma substring_of_append_r (x y z : string) :
  substring_of x z → substring_of x (y +:+ z).
Proof. intros (p & q & ->). exists (y +:+ p), q. by rewrite !append_assoc. Qed.

Lemma substring_of_join (sep x : string) (l : list string) :
  In x l → substring_of x (join sep l).
Proof.
  induction l as [|y l IH]; [done|].
  intros [->|Hin].
  - destruct l; [apply substring_of_refl|].
    apply substring_of_append_l, substring_of_refl.
  - destruct l as [|z l]; [done|].
    change (substring_of x (y +:+ sep +:+ join sep (z :: l))).
    by apply substring_of_append_r, substring_of_append_r, IH.
Qed.

(** [str.title] sees the text after a comma and a space as the start of
    a text. *)
Lemma title_from_comma (b : bool) (x y : string) :
  title_from b (x +:+ ", " +:+ y)
  = title_from b x +:+ ", " +:+ title_from false y.
Proof.
  revert b. induction x as [|c x IH]; intros b.
  - by destruct b.
  - rewrite append_cons. cbn [title_from]. by rewrite IH.
Qed.

Lemma ascii_title_join (l : list string) :
  ascii_title (join ", " l) = join ", " (map ascii_title l).
Proof.
  unfold ascii_title. induction l as [|x [|y l] IH]; [done..|].
  change (title_from false (x +:+ ", " +:+ join ", " (y :: l))
          = title_from false x +:+ ", "
              +:+ join ", " (map (title_from false) (y :: l))).
  by rewrite title_from_comma, IH.
Qed.

End Strings.

Section Message.

Lemma add_product_paragraph (body : string) (item : string * list string) :
  add_product body item = body +:+ paragraph item.
Proof.
  destruct item as [key ls]. unfold add_product, paragraph. simpl.
  by rewrite !append_assoc.
Qed.

Lemma foldl_add_product (body : string) (d : matchset) :
  foldl add_product body d = body +:+ join EmptyString (map paragraph d).
Proof.
  revert body. induction d as [|item d IH]; intros body.
  - by rewrite append_nil_r.
  - cbn [foldl map]. rewrite IH, add_product_paragraph, join_empty_cons.
    by rewrite append_assoc.
Qed.

Lemma compose_body_paragraphs (d : matchset) :
  compose_body d
  = "Great success!" +:+ nl +:+ nl +:+ join EmptyString (map paragraph d).
Proof.
  unfold compose_body. by rewrite foldl_add_product, !append_assoc.
Qed.

Lemma paragraph_keyword (k : string) (ls : list string) :
  substring_of k (paragraph (k, ls)).
Proof.
  unfold paragraph. simpl. apply substring_of_append_l.
  do 2 apply substring_of_append_r.
  apply substring_of_append_l, substring_of_refl.
Qed.

Lemma paragraph_link (k l : string) (ls : list string) :
  In l ls → substring_of l (paragraph (k, ls)).
Proof.
  unfold paragraph. simpl. intros Hin. do 2 apply substring_of_append_r.
  by apply substring_of_append_l, substring_of_join.
Qed.

End Message.

(** C8, as amended. The subject of the message is
    "SmartBuy products alert! (" followed by the title-cased text of the
    keywords joined by ", " and by ")"; title-casing that text title-cases
    each keyword. The body is the greeting followed by one paragraph for
    each keyword, which names the keyword and lists its links. *)
Theorem C8_subject_and_body (title : string → string) (to from : string)
    (d : matchset) :
  msg_subject (compose_message title to from d)
  = "SmartBuy products alert! (" +:+ title (join ", " (keys d)) +:+ ")" ∧
  ascii_title (join ", " (keys d)) = join ", " (map ascii_title (keys d)) ∧
  msg_body (compose_message title to from d)
  = "Great success!" +:+ nl +:+ nl +:+ join EmptyString (map paragraph d) ∧
  (∀ k ls, In (k, ls) d →
     substring_of k (msg_body (compose_message title to from d)) ∧
     ∀ l, In l ls →
          substring_of l (msg_body (compose_message title to from d))).
Proof.
  split; [done|]. split; [apply ascii_title_join|].
  split; [apply compose_body_paragraphs|].
  intros k ls Hin. cbn [msg_body compose_message].
  rewrite compose_body_paragraphs.
  assert (substring_of (paragraph (k, ls)) (join EmptyString (map paragraph d)))
    as Hp by (apply substring_of_join, in_map_iff; by exists (k, ls)).
  split; [|intros l Hl];
    do 3 apply substring_of_append_r;
    (eapply substring_of_trans; [|exact Hp]).
  - apply paragraph_keyword.
  - by apply paragraph_link.
Qed.

(** C8 as stated fails: the subject does not start with "Alert! (". *)
Lemma C8_counterexample :
  ¬ subject_as_specified ascii_title [("tv", ["http://a"])].
Proof.
  intros H. specialize (H EmptyString EmptyString). vm_compute in H.
  discriminate H.
Qed.

(** C9. The message composed from the match set
    {"tv": ["http://a"], "fridge": ["http://b"]} has "Tv" and "Fridge" in
    its subject and both links in its body. *)
Theorem C9_compose_example (to from : string) :
  let m := compose_message ascii_title to from
             [("tv", ["http://a"]); ("fridge", ["http://b"])] in
  msg_subject m = "SmartBuy products alert! (Tv, Fridge)" ∧
  substring_of "Tv" (msg_subject m) ∧
  substring_of "Fridge" (msg_subject m) ∧
  substring_of "http://a" (msg_body m) ∧
  substring_of "http://b" (msg_body m).
Proof.
  cbn zeta. split; [reflexivity|].
  repeat split; apply str_in_spec; reflexivity.
Qed.

(** * Further properties of the script *)

(** ** The matcher *)

(** X1. When the matcher raises, the exception is the one of the traversal
    from an anchor that passes the test of line 42 for one of the keywords:
    anchors that match no keyword never make the matcher fail, whatever
    surrounds them. *)
Theorem raise_comes_from_passing_anchor (lower : string → string)
    (soup : node) (products : list string) (e : exn) :
  search_for_products lower soup products = Raise e →
  ∃ k a, In k (map lower products) ∧ In a (Soup.find_all soup "a") ∧
         condition lower k a = true ∧ date_text_of a = Raise e.
Proof.
  unfold search_for_products. rewrite search_tags_closed.
  destruct (first_error_all _ _ _) as [e'|] eqn:He; [|done].
  intros [= ->]. by apply first_error_all_Some.
Qed.

Lemma raise_comes_from_passing_anchor_witness :
  ∃ k a, In k (map ascii_lower ["Widget"]) ∧
         In a (Soup.find_all (page [widget]) "a") ∧
         condition ascii_lower k a = true ∧
         date_text_of a = Raise StopIteration.
Proof.
  exact (raise_comes_from_passing_anchor ascii_lower (page [widget])
           ["Widget"] StopIteration eq_refl).
Defined.

Lemma lookup_key_in (k : string) (vs : list string) (d : matchset) :
  NoDup (keys d) → In (k, vs) d → lookup_key k d = Some vs.
Proof.
  induction d as [|[k' vs'] d IH]; simpl; [done|].
  intros [Hk Hd]%NoDup_cons [[= -> ->]|Hin].
  - by rewrite String.eqb_refl.
  - destruct (String.eqb_spec k' k) as [->|Hne]; [|by apply IH].
    destruct Hk. apply list_elem_of_In, in_map_iff. by exists (k, vs).
Qed.

Lemma condition_eligible (lower : string → string) (p : string) (a : element) :
  condition lower p a = true → eligible a = true ∧ href a ≠ EmptyString.
Proof.
  unfold condition, eligible. fold (href a).
  destruct (Soup.string_of (elt a)); [|done].
  intros [_ H]%andb_true_iff. split; [done|]. by destruct (href a).
Qed.

(** X2. Every link that the matcher returns is a non-empty string: it is
    the [href] of an anchor of the document that has a [.string] containing
    the keyword it is stored under and whose indicator is fresh. *)
Theorem stored_links_come_from_hits (lower : string → string) (soup : node)
    (products : list string) (d : matchset) (k v : string)
    (vs : list string) :
  search_for_products lower soup products = Ok (Some d) →
  In (k, vs) d → In v vs →
  v ≠ EmptyString ∧
  ∃ a, In a (Soup.find_all soup "a") ∧ href a = v ∧
       eligible a = true ∧ hit lower k a = true.
Proof.
  unfold search_for_products. rewrite search_tags_closed.
  destruct (first_error_all _ _ _); [done|]. intros Hd Hin Hv.
  assert (d = collected lower (map lower products) (Soup.find_all soup "a") [])
    as Heq by (destruct (collected _ _ _ _); by simplify_eq).
  assert (NoDup (keys d)) as Hnd.
  { rewrite Heq, keys_collected. apply (first_occurrences_fresh []). constructor. }
  pose proof (lookup_key_get_list _ _ _ (lookup_key_in _ _ _ Hnd Hin)) as Hg.
  rewrite Heq, get_list_collected in Hg. simpl in Hg. subst vs.
  apply in_concat in Hv as (l & Hl & Hv). apply repeat_spec in Hl as ->.
  unfold links in Hv. apply in_map_iff in Hv as (a & Ha & Hf).
  apply filter_In in Hf as [Hf Hh].
  pose proof Hh as [Hc _]%andb_true_iff.
  apply condition_eligible in Hc as [He Hne].
  split; [by rewrite <- Ha|]. by exists a.
Qed.

Lemma stored_links_come_from_hits_witness :
  "http://x/1" ≠ EmptyString ∧
  ∃ a, In a (Soup.find_all (page [row widget hours5]) "a") ∧
       href a = "http://x/1" ∧ eligible a = true ∧
       hit ascii_lower "widget" a = true.
Proof.
  apply (stored_links_come_from_hits ascii_lower (page [row widget hours5])
           ["Widget"] [("widget", ["http://x/1"])] "widget" "http://x/1"
           ["http://x/1"]); [reflexivity | by left | by left].
Defined.

(** X3. The empty keyword is contained in every text: it passes the test
    of line 42 for exactly the anchors that have a [.string] and a
    non-empty link. *)
Theorem empty_keyword_matches_every_eligible_anchor (lower : string → string)
    (a : element) :
  condition lower EmptyString a = eligible a.
Proof.
  unfold condition, eligible, href.
  destruct (Soup.string_of (elt a)) as [t|]; [|done].
  assert (str_in EmptyString (lower t) = true) as ->; [|done].
  apply str_in_spec. exists EmptyString, (lower t). done.
Qed.

(** X4. Without keywords, or on a document without links, the matcher
    returns [None] and does not raise, whatever the shape of the document. *)
Theorem nothing_to_match (lower : string → string) :
  (∀ soup, search_for_products lower soup [] = Ok None) ∧
  (∀ soup products,
     Soup.find_all soup "a" = [] →
     search_for_products lower soup products = Ok None).
Proof.
  split; [done|]. intros soup products Hnil.
  unfold search_for_products. rewrite Hnil. by apply stale_only.
Qed.

Lemma to_lower_idemp (c : ascii) : to_lower (to_lower c) = to_lower c.
Proof. destruct c as [[] [] [] [] [] [] [] []]; reflexivity. Qed.

Lemma ascii_lower_idemp (s : string) : ascii_lower (ascii_lower s) = ascii_lower s.
Proof.
  induction s as [|c s IH]; [done|]. simpl. by rewrite to_lower_idemp, IH.
Qed.

(** X5. The capitalisation of the keywords does not matter: two keyword
    lists that agree after lower-casing give the same result, and so does a
    list lower-cased beforehand. *)
Theorem keyword_capitalisation_is_irrelevant (soup : node)
    (products products' : list string) :
  map ascii_lower products = map ascii_lower products' →
  search_for_products ascii_lower soup products
  = search_for_products ascii_lower soup products' ∧
  search_for_products ascii_lower soup (map ascii_lower products)
  = search_for_products ascii_lower soup products.
Proof.
  intros H. unfold search_for_products, search_tags. rewrite H. split; [done|].
  rewrite map_map. by rewrite (map_ext _ _ ascii_lower_idemp).
Qed.

Lemma keyword_capitalisation_is_irrelevant_witness :
  search_for_products ascii_lower (page [row widget hours5]) ["WIDGET"; "Pro"]
  = search_for_products ascii_lower (page [row widget hours5]) ["widget"; "PRO"] ∧
  search_for_products ascii_lower (page [row widget hours5])
    (map ascii_lower ["WIDGET"; "Pro"])
  = search_for_products ascii_lower (page [row widget hours5]) ["WIDGET"; "Pro"].
Proof.
  apply (keyword_capitalisation_is_irrelevant (page [row widget hours5])
           ["WIDGET"; "Pro"] ["widget"; "PRO"]). reflexivity.
Defined.

(** X6. The traversal ends in [StopIteration] exactly when the anchor has
    fewer than five ancestors, the document root included. *)
Theorem stop_iteration_iff_shallow (a : element) :
  date_text_of a = Raise StopIteration ↔ length (parents a) < 5.
Proof.
  split; [|apply date_text_of_shallow].
  destruct a as [n [|p1 [|p2 [|p3 [|p4 [|p5 ps]]]]]]; simpl; try lia.
  unfold date_text_of, index. simpl.
  destruct p5 as [|? ? c1]; simpl; [done|].
  destruct (c1 !! 3) as [[|? ? c2]|]; simpl; [done| |done].
  destruct (c2 !! 3) as [[|? ? c3]|]; simpl; [done| |done].
  by destruct (c3 !! 1).
Qed.

(** X7. [matches.setdefault(p, []).append(link)] puts the link at the end
    of the list of [p] (a new list when [p] is a new key), leaves the lists
    of the other keys as they are and never makes a key appear twice. *)
Theorem setdefault_append_lookup (k v : string) (d : matchset) :
  lookup_key k (setdefault_append k v d) = Some (get_list k d ++ [v]) ∧
  (∀ k', k' ≠ k →
     lookup_key k' (setdefault_append k v d) = lookup_key k' d) ∧
  (NoDup (keys d) → NoDup (keys (setdefault_append k v d))).
Proof.
  split; [|split].
  - unfold get_list. induction d as [|[k' vs] d IH]; simpl.
    + by rewrite String.eqb_refl.
    + destruct (String.eqb_spec k' k) as [->|Hne]; simpl.
      * by rewrite String.eqb_refl.
      * by destruct (String.eqb_spec k' k).
  - intros k0 Hne. induction d as [|[k' vs] d IH]; simpl.
    + by destruct (String.eqb_spec k k0).
    + destruct (String.eqb_spec k' k) as [->|Hne']; simpl.
      * by destruct (String.eqb_spec k k0).
      * by rewrite IH.
  - intros Hnd. rewrite keys_setdefault_append. case_bool_decide as Hin; [done|].
    apply NoDup_app. split; [done|]. split; [|apply NoDup_singleton].
    intros x Hx ->%list_elem_of_singleton. done.
Qed.

Lemma setdefault_append_lookup_witness :
  NoDup (keys (setdefault_append "tv" "http://b" [("tv", ["http://a"])])).
Proof.
  apply (setdefault_append_lookup "tv" "http://b" [("tv", ["http://a"])]).
  apply NoDup_singleton.
Defined.

(** ** The message *)

Lemma to_lower_to_upper (c : ascii) : to_lower (to_upper c) = to_lower c.
Proof. destruct c as [[] [] [] [] [] [] [] []]; reflexivity. Qed.

Lemma ascii_lower_title_from (b : bool) (s : string) :
  ascii_lower (title_from b s) = ascii_lower s.
Proof.
  revert b. induction s as [|c s IH]; intros b; [done|]. simpl.
  rewrite IH. by destruct b; rewrite ?to_lower_idemp, ?to_lower_to_upper.
Qed.

Lemma ascii_lower_append (x y : string) :
  ascii_lower (x +:+ y) = ascii_lower x +:+ ascii_lower y.
Proof.
  induction x as [|c x IH]; [done|].
  rewrite append_cons. simpl. by rewrite IH, append_cons.
Qed.

Lemma ascii_lower_join (l : list string) :
  ascii_lower (join ", " l) = join ", " (map ascii_lower l).
Proof.
  induction l as [|x [|y l] IH]; [done..|].
  change (ascii_lower (x +:+ ", " +:+ join ", " (y :: l))
          = ascii_lower x +:+ ", " +:+ join ", " (map ascii_lower (y :: l))).
  by rewrite !ascii_lower_append, IH.
Qed.

Lemma ascii_only_to_lower (c : ascii) :
  (nat_of_ascii (to_lower c) <? 128)%nat = (nat_of_ascii c <? 128)%nat.
Proof. destruct c as [[] [] [] [] [] [] [] []]; reflexivity. Qed.

Lemma ascii_only_to_upper (c : ascii) :
  (nat_of_ascii (to_upper c) <? 128)%nat = (nat_of_ascii c <? 128)%nat.
Proof. destruct c as [[] [] [] [] [] [] [] []]; reflexivity. Qed.

Lemma ascii_only_lower (s : string) : ascii_only (ascii_lower s) = ascii_only s.
Proof.
  induction s as [|c s IH]; [done|]. simpl. by rewrite ascii_only_to_lower, IH.
Qed.

Lemma ascii_only_title_from (b : bool) (s : string) :
  ascii_only (title_from b s) = ascii_only s.
Proof.
  revert b. induction s as [|c s IH]; intros b; [done|]. simpl. rewrite IH.
  by destruct b; rewrite ?ascii_only_to_lower, ?ascii_only_to_upper.
Qed.

Lemma ascii_only_append (x y : string) :
  ascii_only (x +:+ y) = ascii_only x && ascii_only y.
Proof.
  induction x as [|c x IH]; [done|].
  rewrite append_cons. simpl. by rewrite IH, andb_assoc.
Qed.

Lemma ascii_only_join (l : list string) :
  Forall (λ x, ascii_only x = true) l → ascii_only (join ", " l) = true.
Proof.
  induction l as [|x [|y l] IH]; intros Hl; [done| |].
  - by apply Forall_inv in Hl.
  - change (ascii_only (x +:+ ", " +:+ join ", " (y :: l)) = true).
    rewrite !ascii_only_append.
    rewrite (Forall_inv Hl), (IH (Forall_inv_tail Hl)). done.
Qed.

(** X8. For ASCII keywords, the subject of the message composed from a
    result of the matcher lists, between the parentheses, exactly the keys
    of the result joined by ", ", up to the capitalisation of letters.
    [lower] and [title] are any functions that agree with [ascii_lower] and
    [ascii_title] on ASCII texts, as [str.lower] and [str.title] do. *)
Theorem subject_lists_matched_keywords (lower title : string → string)
    (soup : node) (products : list string) (d : matchset) (to from : string) :
  (∀ s, ascii_only s = true → lower s = ascii_lower s) →
  (∀ s, ascii_only s = true → title s = ascii_title s) →
  Forall (λ p, ascii_only p = true) products →
  search_for_products lower soup products = Ok (Some d) →
  ∃ listed,
    msg_subject (compose_message title to from d)
    = "SmartBuy products alert! (" +:+ listed +:+ ")" ∧
    lower listed = join ", " (keys d).
Proof.
  intros Hlower Htitle Hascii Hd.
  assert (∀ k, In k (keys d) → ascii_only k = true ∧ ascii_lower k = k) as Hkeys.
  { intros k [[k' vs] [Hk Hin]]%in_map_iff. simpl in Hk. subst k'.
    revert Hd. unfold search_for_products. rewrite search_tags_closed.
    destruct (first_error_all _ _ _); [done|]. intros Hd.
    assert (d = collected lower (map lower products)
                  (Soup.find_all soup "a") [])
      as -> by (destruct (collected _ _ _ _); by simplify_eq).
    apply in_collected in Hin as [[]|(Hk & _)].
    apply in_map_iff in Hk as (p & <- & Hp).
    rewrite Forall_forall in Hascii.
    apply list_elem_of_In, Hascii in Hp.
    rewrite (Hlower p Hp), ascii_only_lower, ascii_lower_idemp. done. }
  assert (ascii_only (join ", " (keys d)) = true) as Hjoin.
  { apply ascii_only_join, Forall_forall.
    intros k Hk%list_elem_of_In. by apply Hkeys. }
  exists (title (join ", " (keys d))). split; [done|].
  rewrite (Htitle _ Hjoin), Hlower
    by (unfold ascii_title; by rewrite ascii_only_title_from).
  unfold ascii_title. rewrite ascii_lower_title_from, ascii_lower_join.
  f_equal. rewrite <- (map_id (keys d)) at 2. apply map_ext_in.
  intros k Hk. by apply Hkeys.
Qed.

Lemma subject_lists_matched_keywords_witness :
  ∃ listed,
    msg_subject (compose_message ascii_title "to@example.org"
                   "from@example.org" [("widget", ["http://x/1"])])
    = "SmartBuy products alert! (" +:+ listed +:+ ")" ∧
    ascii_lower listed = join ", " (keys [("widget", ["http://x/1"])]).
Proof.
  apply (subject_lists_matched_keywords ascii_lower ascii_title
           (page [row widget hours5]) ["Widget"]
           [("widget", ["http://x/1"])] "to@example.org" "from@example.org").
  - reflexivity.
  - reflexivity.
  - repeat constructor.
  - reflexivity.
Defined.

(** ** Logging in, sending and the whole run *)

Section Run.

Variable E : environment.
Implicit Types (w : world) (d : matchset) (f : failure).






End Run.










(** X14. A run in which the matcher does not return a dictionary changes
    nothing: no log-in is attempted, no file is written, nothing is sent,
    logged or printed.  It returns normally exactly when the matcher
    returned [None]; an exception of the matcher ends the run as it is. *)
Theorem run_without_match_changes_nothing (E : environment)
    (products : list string) (w w' : world) (o : outcome unit) :
  main E products w = (o, w') →
  (∀ html d,
     get_page_data E = Returned html →
     search_for_products (str_lower E) (html_parser E html) products
     ≠ Ok (Some d)) →
  w' = w ∧
  (o = Returned () ↔
   ∃ html, get_page_data E = Returned html ∧
           search_for_products (str_lower E) (html_parser E html) products
           = Ok None) ∧
  (∀ html e,
     get_page_data E = Returned html →
     search_for_products (str_lower E) (html_parser E html) products
     = Raise e →
     o = Uncaught (MatcherError e)).
Proof.
  unfold main. intros H Hno.
  destruct (get_page_data E) as [html|f] eqn:Hget.
  - specialize (Hno html).
    destruct (search_for_products _ _ _) as [[d|]|e] eqn:Hfound.
    + by destruct (Hno d).
    + injection H as <- <-. split_and!; [done| |].
      * split; [intros _; by exists html|done].
      * intros html' e [= <-] Hr. congruence.
    + injection H as <- <-. split_and!; [done| |].
      * split; [done|]. intros (html' & [= <-] & ?). congruence.
      * intros html' e' [= <-] Hr. congruence.
  - injection H as <- <-. split_and!; [done| |done].
    split; [done|]. by intros (html' & ? & _).
Qed.

Lemma run_without_match_changes_nothing_witness :
  SampleRun.empty_world = SampleRun.empty_world ∧
  (Uncaught (MatcherError StopIteration) = Returned () ↔
   ∃ html : string,
     Returned EmptyString = Returned html ∧
     search_for_products ascii_lower (page [widget]) ["Widget"] = Ok None) ∧
  (∀ (html : string) e,
     Returned EmptyString = Returned html →
     search_for_products ascii_lower (page [widget]) ["Widget"] = Raise e →
     @Uncaught unit (MatcherError StopIteration) = Uncaught (MatcherError e)).
Proof.
  apply (run_without_match_changes_nothing
           (SampleRun.env (Returned EmptyString) (page [widget])
              (Returned SampleRun.granted) None)
           ["Widget"] SampleRun.empty_world SampleRun.empty_world
           (Uncaught (MatcherError StopIteration))).
  - reflexivity.
  - intros html d _ H. vm_compute in H. discriminate H.
Defined.
